(** * FontFile: the managed wrapper around a native IDWriteFontFile

    A shallow embedding of [wpf/src/Core/cpp/dwritewrapper/fontfile.cpp].

    The wrapper makes native (COM) calls whose answers it cannot predict.
    The native layer is therefore a record of functions ([Native]), and every
    operation runs in a small monad that threads

    - the mutable variables the operation owns (its by-reference parameters,
      the locals its [finally] block reads, or the object itself),
    - the chronological log of native calls, allocations and releases,

    and ends in one of four ways: a normal return, a managed exception, the
    fail-fast of [Invariant::Assert], or native undefined behaviour. *)

From Stdlib Require Import ZArith List String Bool Lia.
From Stdlib.Strings Require Import Byte.
Import ListNotations.
Local Open Scope Z_scope.

(** ** Machine data *)

(** [UINT32], [BOOL] and [HRESULT] are 32-bit; a pointer is an address with
    [NULL] = 0; a [WCHAR] is a 16-bit code unit. *)
Definition UINT32 := Z.
Definition BOOL := Z.
Definition HRESULT := Z.
Definition ptr := Z.
Definition WCHAR := Z.

Definition NULL : ptr := 0.
Definition UINT_MAX : Z := 4294967295.

(** What a 32-bit unsigned, resp. signed, variable holds after a store. *)
Definition to_UINT32 (z : Z) : UINT32 := z mod 4294967296.
Definition to_HRESULT (z : Z) : HRESULT :=
  (z + 2147483648) mod 4294967296 - 2147483648.

(** winerror.h: [FAILED(hr)] is [hr < 0]; the two status codes used below. *)
Definition FAILED (hr : HRESULT) : bool := hr <? 0.
Definition S_OK : HRESULT := 0.
Definition E_NOINTERFACE : HRESULT := -2147467262. (* 0x80004002 *)
Definition E_FAIL : HRESULT := -2147467259.        (* 0x80004005 *)

(** A managed [System::String]: its characters, without terminator. *)
Definition String := list WCHAR.

(** A [GUID], kept in the textual form the static constructor parses. *)
Definition GUID := string.

(** The memory behind a [void*] reference key, read as little-endian
    [WCHAR]s (the cast [(WCHAR* )fontFileReferenceKey]). *)
Fixpoint wchars_of_bytes (bs : list byte) : list WCHAR :=
  match bs with
  | lo :: hi :: rest =>
      (Z.of_N (Byte.to_N lo) + 256 * Z.of_N (Byte.to_N hi)) :: wchars_of_bytes rest
  | _ => []
  end.

(** [System::String(WCHAR* )]: the characters before the first terminator;
    [None] when the readable memory holds no terminator. *)
Fixpoint wcs_prefix (ws : list WCHAR) : option String :=
  match ws with
  | [] => None
  | c :: rest => if c =? 0 then Some [] else option_map (cons c) (wcs_prefix rest)
  end.

(** The first [n] elements of a list, for a count held in a machine integer. *)
Fixpoint firstn_Z {A : Type} (n : Z) (l : list A) : list A :=
  match l with
  | [] => []
  | a :: l' => if 0 <? n then a :: firstn_Z (n - 1) l' else []
  end.

(** A native [WCHAR] array: its capacity and what has been written to it. *)
Record wbuf := mk_wbuf { capacity : UINT32; written : list WCHAR }.

(** ** The native layer *)

(** What [IDWriteFontFile::Analyze] leaves in its four out-parameters. *)
Record AnalyzeOut := mk_AnalyzeOut {
  isSupported : BOOL;
  dwriteFontFileType : Z;
  dwriteFontFaceType : Z;
  numberOfFacesDWrite : UINT32
}.

(** The answers of the native font services: each method returns its status
    and the contents of its out-parameters after the call. *)
Record Native := mk_Native {
  IDWriteFontFile_Analyze : ptr -> Z * AnalyzeOut;
  IDWriteFontFile_GetLoader : ptr -> Z * ptr;
  IDWriteFontFile_GetReferenceKey : ptr -> Z * (list byte * Z);
  IDWriteFontFileLoader_QueryInterface : ptr -> GUID -> Z * ptr;
  IDWriteLocalFontFileLoader_GetFilePathLengthFromKey :
    ptr -> list byte -> UINT32 -> Z * Z;
  IDWriteLocalFontFileLoader_GetFilePathFromKey :
    ptr -> list byte -> UINT32 -> UINT32 -> Z * list WCHAR
}.

(** The static type of the interface pointer a [Release] goes through. *)
Inductive iface :=
| IDWriteFontFile
| IDWriteFontFileLoader
| IDWriteLocalFontFileLoader.

(** The log: every native call with what it answered, every [new] and
    [delete []] of a [WCHAR] array. *)
Inductive event :=
| Analyze_call (this : ptr) (hr : HRESULT) (out : AnalyzeOut)
| GetLoader_call (this : ptr) (hr : HRESULT) (loader : ptr)
| QueryInterface_call (this : ptr) (iid : GUID) (hr : HRESULT) (ppv : ptr)
| GetReferenceKey_call (this : ptr) (hr : HRESULT) (key : list byte) (size : UINT32)
| GetFilePathLengthFromKey_call
    (this : ptr) (key : list byte) (size : UINT32) (hr : HRESULT) (len : UINT32)
| GetFilePathFromKey_call
    (this : ptr) (key : list byte) (size : UINT32) (bufsize : UINT32)
    (hr : HRESULT) (path : list WCHAR)
| Release_call (via : iface) (this : ptr)
| new_WCHAR (n : UINT32)
| delete_WCHAR (n : UINT32).

(** ** Outcomes and the monad *)

Inductive exn :=
| HresultException (hr : HRESULT) (exceptionMessage : string)
| NullReferenceException.

Inductive undefined_behaviour :=
| NullPointerCall      (* a method called through a NULL native pointer *)
| ReadPastEnd.         (* a string read that meets no terminator *)

Inductive result (A : Type) : Type :=
| Return (a : A)
| Throw (e : exn)
| FailFast
| Undefined (u : undefined_behaviour).
Arguments Return {A} a.
Arguments Throw {A} e.
Arguments FailFast {A}.
Arguments Undefined {A} u.

Definition M (L A : Type) : Type :=
  L -> list event -> result A * L * list event.

Section Monad.
Context {L : Type}.

Definition ret {A} (a : A) : M L A := fun l t => (Return a, l, t).

Definition bind {A B} (m : M L A) (k : A -> M L B) : M L B :=
  fun l t =>
    match m l t with
    | (Return a, l', t') => k a l' t'
    | (Throw e, l', t') => (Throw e, l', t')
    | (FailFast, l', t') => (FailFast, l', t')
    | (Undefined u, l', t') => (Undefined u, l', t')
    end.

Definition throw {A} (e : exn) : M L A := fun l t => (Throw e, l, t).
Definition failfast {A} : M L A := fun l t => (FailFast, l, t).
Definition undefined {A} (u : undefined_behaviour) : M L A :=
  fun l t => (Undefined u, l, t).

Definition get : M L L := fun l t => (Return l, l, t).
Definition gets {A} (f : L -> A) : M L A := fun l t => (Return (f l), l, t).
Definition modify (f : L -> L) : M L unit := fun l t => (Return tt, f l, t).
Definition emit (e : event) : M L unit := fun l t => (Return tt, l, t ++ [e]).

(** [try { body } finally { handler }]: the handler runs when the body
    returns or throws; the body's outcome stands unless the handler itself
    ends abnormally.  A fail-fast or undefined behaviour ends the process:
    no handler runs. *)
Definition try_finally {A} (body : M L A) (handler : M L unit) : M L A :=
  fun l t =>
    match body l t with
    | (Return a, l', t') =>
        match handler l' t' with
        | (Return _, l'', t'') => (Return a, l'', t'')
        | (Throw e, l'', t'') => (Throw e, l'', t'')
        | (FailFast, l'', t'') => (FailFast, l'', t'')
        | (Undefined u, l'', t'') => (Undefined u, l'', t'')
        end
    | (Throw e, l', t') =>
        match handler l' t' with
        | (Return _, l'', t'') => (Throw e, l'', t'')
        | (Throw e', l'', t'') => (Throw e', l'', t'')
        | (FailFast, l'', t'') => (FailFast, l'', t'')
        | (Undefined u, l'', t'') => (Undefined u, l'', t'')
        end
    | (FailFast, l', t') => (FailFast, l', t')
    | (Undefined u, l', t') => (Undefined u, l', t')
    end.
End Monad.

Declare Scope monad_scope.
Delimit Scope monad_scope with monad.
Notation "x <- m ;; k" := (bind m (fun x => k))
  (at level 61, m at next level, right associativity) : monad_scope.
Notation "' pat <- m ;; k" := (bind m (fun x => match x with pat => k end))
  (at level 61, pat pattern, m at next level, right associativity) : monad_scope.
Notation "m ;; k" := (bind m (fun _ => k))
  (at level 61, right associativity) : monad_scope.
Local Open Scope monad_scope.

(** ** Helpers declared outside fontfile.cpp *)

(** Modelled from the spec: [ConvertHresultToException] is declared in a header
    that is not part of the sources.  A failing status becomes an error that
    carries the status and the text it was given; a succeeding one is ignored. *)
Definition ConvertHresultToException {L} (hr : HRESULT) (exceptionMessage : string)
  : M L unit :=
  if FAILED hr then throw (HresultException hr exceptionMessage) else ret tt.

(** Modelled from the spec: [MS::Internal::Invariant::Assert] is not part of
    the sources.  A false condition is fatal and unrecoverable, not an error
    a caller can handle. *)
Definition Invariant_Assert {L} (condition : bool) : M L unit :=
  if condition then ret tt else failfast.

(** [System::GC::KeepAlive] only constrains the garbage collector. *)
Definition GC_KeepAlive {L} : M L unit := ret tt.

(** Modelled from the spec: [NativeIUnknownWrapper<T>] is not part of the
    sources.  It holds one native interface pointer, [Value]; deleting it
    just releases that interface, if there is one. *)
Record NativeIUnknownWrapper := mk_wrapper { Value : ptr }.

Definition delete_NativeIUnknownWrapper {L} (w : NativeIUnknownWrapper) : M L unit :=
  if Value w =? NULL then ret tt
  else emit (Release_call IDWriteFontFile (Value w)).

(** [h->Value] on a managed handle: a [nullptr] handle raises the runtime's
    [NullReferenceException]. *)
Definition handle_Value {L} (h : option NativeIUnknownWrapper) : M L ptr :=
  match h with
  | Some w => ret (Value w)
  | None => throw NullReferenceException
  end.

(** [gcnew System::String(p)] over the [WCHAR]s readable from [p]. *)
Definition gcnew_String {L} (mem : list WCHAR) : M L String :=
  match wcs_prefix mem with
  | Some s => ret s
  | None => undefined ReadPastEnd
  end.

(** ** The class *)

(** The static constructor's constant. *)
Definition _guidForIDWriteLocalFontFileLoader : GUID :=
  "b2d9f3ec-c9fe-4a11-a2ec-d86208f7c0a2"%string.

(** The object: its one field, a managed handle ([None] is [nullptr]). *)
Record FontFile := mk_FontFile { _fontFile : option NativeIUnknownWrapper }.

(** [FontFile::FontFile(IDWriteFontFile* fontFile)] *)
Definition FontFile_ctor (fontFile : ptr) : FontFile :=
  {| _fontFile := Some {| Value := fontFile |} |}.

(** [FontFile::~FontFile()]: runs over the object itself. *)
Definition FontFile_dtor : M FontFile unit :=
  this <- get ;;
  match _fontFile this with
  | Some w =>
      delete_NativeIUnknownWrapper w ;;
      modify (fun _ => {| _fontFile := None |})
  | None => ret tt
  end.

(** [FontFile::DWriteFontFileNoAddRef::get()] *)
Definition DWriteFontFileNoAddRef_get {L} (this : FontFile) : M L ptr :=
  handle_Value (_fontFile this).

(** The by-reference parameters of [Analyze], as the caller sees them. *)
Record AnalyzeRefs := mk_AnalyzeRefs {
  fontFileType : Z;
  fontFaceType : Z;
  numberOfFaces : UINT32;
  hr_ref : HRESULT
}.

(** The locals of [GetUriPath] that its [finally] block reads. *)
Record GetUriPathLocals := mk_GetUriPathLocals {
  localFontFileLoader : ptr;
  fontFilePath : option wbuf          (* [None] is [NULL] *)
}.

(** The address of a pointer variable: how to read and to overwrite it. *)
Record ptr_var (L : Type) := mk_ptr_var { load : L -> ptr; store : ptr -> L -> L }.
Arguments load {L} _ _.
Arguments store {L} _ _ _.

(** [&localFontFileLoader] *)
Definition addr_localFontFileLoader : ptr_var GetUriPathLocals :=
  {| load := localFontFileLoader;
     store := fun p l => {| localFontFileLoader := p; fontFilePath := fontFilePath l |} |}.

(** [FontFile::ReleaseInterface(IDWriteLocalFontFileLoader** ppInterface)];
    [None] is a null [ppInterface]. *)
Definition ReleaseInterface {L} (ppInterface : option (ptr_var L)) : M L unit :=
  match ppInterface with
  | Some pInterface =>
      p <- gets (load pInterface) ;;
      if p =? NULL then ret tt
      else
        emit (Release_call IDWriteLocalFontFileLoader p) ;;
        modify (store pInterface NULL)
  | None => ret tt
  end.

Section WithNative.
Variable N : Native.

(** *** Native calls: logged, their results stored in typed variables.
    A call through a [NULL] interface pointer is undefined behaviour. *)

Definition call_Analyze {L} (p : ptr) : M L (HRESULT * AnalyzeOut) :=
  if p =? NULL then undefined NullPointerCall
  else
    let '(hr, out) := IDWriteFontFile_Analyze N p in
    let hr := to_HRESULT hr in
    let out := {| isSupported := isSupported out;
                  dwriteFontFileType := dwriteFontFileType out;
                  dwriteFontFaceType := dwriteFontFaceType out;
                  numberOfFacesDWrite := to_UINT32 (numberOfFacesDWrite out) |} in
    emit (Analyze_call p hr out) ;; ret (hr, out).

Definition call_GetLoader {L} (p : ptr) : M L (HRESULT * ptr) :=
  if p =? NULL then undefined NullPointerCall
  else
    let '(hr, loader) := IDWriteFontFile_GetLoader N p in
    let hr := to_HRESULT hr in
    emit (GetLoader_call p hr loader) ;; ret (hr, loader).

Definition call_QueryInterface {L} (p : ptr) (iid : GUID) : M L (HRESULT * ptr) :=
  if p =? NULL then undefined NullPointerCall
  else
    let '(hr, ppv) := IDWriteFontFileLoader_QueryInterface N p iid in
    let hr := to_HRESULT hr in
    emit (QueryInterface_call p iid hr ppv) ;; ret (hr, ppv).

Definition call_GetReferenceKey {L} (p : ptr) : M L (HRESULT * list byte * UINT32) :=
  if p =? NULL then undefined NullPointerCall
  else
    let '(hr, (key, size)) := IDWriteFontFile_GetReferenceKey N p in
    let hr := to_HRESULT hr in
    let size := to_UINT32 size in
    emit (GetReferenceKey_call p hr key size) ;; ret (hr, key, size).

Definition call_GetFilePathLengthFromKey {L}
    (p : ptr) (key : list byte) (size : UINT32) : M L (HRESULT * UINT32) :=
  if p =? NULL then undefined NullPointerCall
  else
    let '(hr, len) := IDWriteLocalFontFileLoader_GetFilePathLengthFromKey N p key size in
    let hr := to_HRESULT hr in
    let len := to_UINT32 len in
    emit (GetFilePathLengthFromKey_call p key size hr len) ;; ret (hr, len).

(** The path is written into the array [fontFilePath] points to, which
    holds no more than its capacity. *)
Definition call_GetFilePathFromKey
    (p : ptr) (key : list byte) (size : UINT32) (bufsize : UINT32)
  : M GetUriPathLocals HRESULT :=
  if p =? NULL then undefined NullPointerCall
  else
    let '(hr, path) :=
      IDWriteLocalFontFileLoader_GetFilePathFromKey N p key size bufsize in
    let hr := to_HRESULT hr in
    buf <- gets fontFilePath ;;
    match buf with
    | Some b =>
        let path := firstn_Z (capacity b) path in
        emit (GetFilePathFromKey_call p key size bufsize hr path) ;;
        modify (fun l => {| localFontFileLoader := localFontFileLoader l;
                            fontFilePath := Some {| capacity := capacity b;
                                                    written := path |} |}) ;;
        ret hr
    | None => undefined NullPointerCall
    end.

(** [fontFilePath = new WCHAR[n]] *)
Definition new_WCHAR_array (n : UINT32) : M GetUriPathLocals unit :=
  emit (new_WCHAR n) ;;
  modify (fun l => {| localFontFileLoader := localFontFileLoader l;
                      fontFilePath := Some {| capacity := n; written := [] |} |}).

(** [delete [] fontFilePath] *)
Definition delete_WCHAR_array (b : wbuf) : M GetUriPathLocals unit :=
  emit (delete_WCHAR (capacity b)).

(** *** [bool FontFile::Analyze(fontFileType, fontFaceType, numberOfFaces, hr)] *)
Definition Analyze (this : FontFile) : M AnalyzeRefs bool :=
  fontFile <- handle_Value (_fontFile this) ;;
  '(hr, out) <- call_Analyze fontFile ;;
  modify (fun r => {| fontFileType := fontFileType r;
                      fontFaceType := fontFaceType r;
                      numberOfFaces := numberOfFaces r;
                      hr_ref := hr |}) ;;
  GC_KeepAlive ;;
  if FAILED hr then ret false
  else
    modify (fun r => {| fontFileType := dwriteFontFileType out;
                        fontFaceType := dwriteFontFaceType out;
                        numberOfFaces := numberOfFacesDWrite out;
                        hr_ref := hr_ref r |}) ;;
    ret (negb (isSupported out =? 0)).

(** *** [System::String^ FontFile::GetUriPath()] *)

(** The condition it asserts on the path length,
    [sizeOfFilePath >= 0 && sizeOfFilePath < UINT_MAX]. *)
Definition sizeOfFilePath_in_range (sizeOfFilePath : UINT32) : bool :=
  (sizeOfFilePath >=? 0) && (sizeOfFilePath <? UINT_MAX).

Definition GetUriPath_name : string := "System::String^ FontFile::GetUriPath".

Definition GetUriPath (this : FontFile) : M GetUriPathLocals String :=
  fontFile <- handle_Value (_fontFile this) ;;
  '(hr, fontFileLoader) <- call_GetLoader fontFile ;;
  ConvertHresultToException hr GetUriPath_name ;;
  '(hr, localFontFileLoaderInterfacePointer) <-
    call_QueryInterface fontFileLoader _guidForIDWriteLocalFontFileLoader ;;
  if hr =? E_NOINTERFACE then
    fontFile <- handle_Value (_fontFile this) ;;
    '(hr, fontFileReferenceKey, sizeOfFontFileReferenceKey) <-
      call_GetReferenceKey fontFile ;;
    GC_KeepAlive ;;
    ConvertHresultToException hr GetUriPath_name ;;
    gcnew_String (wchars_of_bytes fontFileReferenceKey)
  else
    modify (fun _ => {| localFontFileLoader := localFontFileLoaderInterfacePointer;
                        fontFilePath := None |}) ;;
    try_finally
      ( fontFile <- handle_Value (_fontFile this) ;;
        '(hr, fontFileReferenceKey, sizeOfFontFileReferenceKey) <-
          call_GetReferenceKey fontFile ;;
        GC_KeepAlive ;;
        ConvertHresultToException hr GetUriPath_name ;;
        loader <- gets localFontFileLoader ;;
        '(hr, sizeOfFilePath) <-
          call_GetFilePathLengthFromKey
            loader fontFileReferenceKey sizeOfFontFileReferenceKey ;;
        ConvertHresultToException hr GetUriPath_name ;;
        Invariant_Assert (sizeOfFilePath_in_range sizeOfFilePath) ;;
        new_WCHAR_array (to_UINT32 (sizeOfFilePath + 1)) ;;
        hr <- call_GetFilePathFromKey
                loader fontFileReferenceKey sizeOfFontFileReferenceKey
                (to_UINT32 (sizeOfFilePath + 1)) ;;
        ConvertHresultToException hr GetUriPath_name ;;
        buf <- gets fontFilePath ;;
        match buf with
        | Some b => gcnew_String (written b)
        | None => undefined NullPointerCall
        end )
      ( ReleaseInterface (Some addr_localFontFileLoader) ;;
        buf <- gets fontFilePath ;;
        match buf with
        | Some b => delete_WCHAR_array b
        | None => ret tt
        end ).

(** *** Running an operation from a fresh call frame *)

Definition no_locals : GetUriPathLocals :=
  {| localFontFileLoader := NULL; fontFilePath := None |}.

(** The outcome of [this->GetUriPath()] and the log of what it did. *)
Definition run_GetUriPath (this : FontFile) : result String * list event :=
  let '(r, _, t) := GetUriPath this no_locals [] in (r, t).

(** The outcome of [this->Analyze(...)], the by-reference parameters after
    the call, and the log. *)
Definition run_Analyze (this : FontFile) (refs : AnalyzeRefs)
  : result bool * AnalyzeRefs * list event :=
  Analyze this refs [].

End WithNative.

(** Disposal: the outcome, the object afterwards, the log. *)
Definition run_dtor (this : FontFile) : result unit * FontFile * list event :=
  FontFile_dtor this [].

(** The outcome of the accessor and the log. *)
Definition run_get (this : FontFile) : result ptr * list event :=
  let '(r, _, t) := DWriteFontFileNoAddRef_get this tt [] in (r, t).

(** ** Reading the log *)

(** The four native steps of [GetUriPath] whose failure is raised. *)
Inductive step :=
| LoaderRetrieval
| ReferenceKeyRetrieval
| PathLengthRetrieval
| PathRetrieval.

(** The step a logged call belongs to, with the status it answered. *)
Definition step_of (e : event) : option (step * HRESULT) :=
  match e with
  | GetLoader_call _ hr _ => Some (LoaderRetrieval, hr)
  | GetReferenceKey_call _ hr _ _ => Some (ReferenceKeyRetrieval, hr)
  | GetFilePathLengthFromKey_call _ _ _ hr _ => Some (PathLengthRetrieval, hr)
  | GetFilePathFromKey_call _ _ _ _ hr _ => Some (PathRetrieval, hr)
  | _ => None
  end.

(** The first of the four steps that answered a failing status. *)
Fixpoint failed_step (t : list event) : option step :=
  match t with
  | [] => None
  | e :: t' =>
      match step_of e with
      | Some (s, hr) => if FAILED hr then Some s else failed_step t'
      | None => failed_step t'
      end
  end.

Definition is_Release (e : event) : bool :=
  match e with Release_call _ _ => true | _ => false end.

Definition is_new (e : event) : bool :=
  match e with new_WCHAR _ => true | _ => false end.

Definition is_delete (e : event) : bool :=
  match e with delete_WCHAR _ => true | _ => false end.

(** What a [finally] block does: releases and frees. *)
Definition is_cleanup (e : event) : bool := is_Release e || is_delete e.

(** The two operations only a local font-file loader has. *)
Definition is_local_file_call (e : event) : bool :=
  match e with
  | GetFilePathLengthFromKey_call _ _ _ _ _ => true
  | GetFilePathFromKey_call _ _ _ _ _ _ => true
  | _ => false
  end.

Definition count (f : event -> bool) (t : list event) : nat :=
  List.length (filter f t).

(** ** Scripted native layers, for the examples *)

(** A native layer that gives every call of a method the same answer. *)
Definition scripted
    (analyze : Z * AnalyzeOut)
    (hrLoader : Z) (loader : ptr)
    (hrQuery : Z) (ppv : ptr)
    (hrKey : Z) (key : list byte)
    (hrLength : Z) (len : Z)
    (hrPath : Z) (path : list WCHAR) : Native :=
  {| IDWriteFontFile_Analyze := fun _ => analyze;
     IDWriteFontFile_GetLoader := fun _ => (hrLoader, loader);
     IDWriteFontFile_GetReferenceKey :=
       fun _ => (hrKey, (key, Z.of_nat (List.length key)));
     IDWriteFontFileLoader_QueryInterface := fun _ _ => (hrQuery, ppv);
     IDWriteLocalFontFileLoader_GetFilePathLengthFromKey :=
       fun _ _ _ => (hrLength, len);
     IDWriteLocalFontFileLoader_GetFilePathFromKey :=
       fun _ _ _ _ => (hrPath, path) |}.

(** "a.b" as a reference key: UTF-16, little-endian, terminated. *)
Definition key_a_b : list byte :=
  [x61; x00; x2e; x00; x62; x00; x00; x00]%byte.

(** "C:\f" and its terminator. *)
Definition path_C_f : list WCHAR := [67; 58; 92; 102; 0].

Definition truetype_one_face : AnalyzeOut :=
  {| isSupported := 1; dwriteFontFileType := 2; dwriteFontFaceType := 1;
     numberOfFacesDWrite := 1 |}.

Definition unknown_format : AnalyzeOut :=
  {| isSupported := 0; dwriteFontFileType := 0; dwriteFontFaceType := 0;
     numberOfFacesDWrite := 0 |}.

(** A local font file: every call succeeds. *)
Definition local_file : Native :=
  scripted (S_OK, truetype_one_face) S_OK 20 S_OK 30 S_OK key_a_b S_OK 4 S_OK path_C_f.

(** A custom loader without the local-file interface. *)
Definition custom_loader : Native :=
  scripted (S_OK, truetype_one_face) S_OK 20 E_NOINTERFACE NULL S_OK key_a_b S_OK 0 S_OK [].

(** The same loader when the font file refuses to give its key. *)
Definition custom_loader_key_fails : Native :=
  scripted (S_OK, truetype_one_face) S_OK 20 E_NOINTERFACE NULL E_FAIL [] S_OK 0 S_OK [].

(** Failures at each of the four steps of the local-file path. *)
Definition loader_fails : Native :=
  scripted (S_OK, truetype_one_face) E_FAIL NULL S_OK 30 S_OK key_a_b S_OK 4 S_OK path_C_f.
Definition key_fails : Native :=
  scripted (S_OK, truetype_one_face) S_OK 20 S_OK 30 E_FAIL [] S_OK 4 S_OK path_C_f.
Definition length_fails : Native :=
  scripted (S_OK, truetype_one_face) S_OK 20 S_OK 30 S_OK key_a_b E_FAIL 0 S_OK path_C_f.
Definition path_fails : Native :=
  scripted (S_OK, truetype_one_face) S_OK 20 S_OK 30 S_OK key_a_b S_OK 4 E_FAIL [].

(** The capability query fails, but not with [E_NOINTERFACE]. *)
Definition query_fails : Native :=
  scripted (S_OK, truetype_one_face) S_OK 20 E_FAIL NULL S_OK key_a_b S_OK 4 S_OK path_C_f.

(** The loader announces 4 characters and writes a shorter path, "C:". *)
Definition short_path : Native :=
  scripted (S_OK, truetype_one_face) S_OK 20 S_OK 30 S_OK key_a_b S_OK 4 S_OK [67; 58; 0].

(** The loader announces the largest and the next to largest [UINT32]. *)
Definition length_UINT_MAX : Native :=
  scripted (S_OK, truetype_one_face) S_OK 20 S_OK 30 S_OK key_a_b S_OK 4294967295 S_OK [0].
Definition length_huge : Native :=
  scripted (S_OK, truetype_one_face) S_OK 20 S_OK 30 S_OK key_a_b S_OK 4294967294 S_OK [0].

(** Analysis that fails, and analysis of a file of no known format. *)
Definition analyze_fails : Native :=
  scripted (E_FAIL, truetype_one_face) S_OK 20 S_OK 30 S_OK key_a_b S_OK 4 S_OK path_C_f.
Definition analyze_unsupported : Native :=
  scripted (S_OK, unknown_format) S_OK 20 S_OK 30 S_OK key_a_b S_OK 4 S_OK path_C_f.

(** A handle around the native font file at address 10. *)
Definition live : FontFile := FontFile_ctor 10.

(** What the caller's variables hold before [Analyze]. *)
Definition untouched : AnalyzeRefs :=
  {| fontFileType := 77; fontFaceType := 78; numberOfFaces := 79; hr_ref := 80 |}.

(** The handle a disposal leaves behind. *)
Definition disposed : FontFile := snd (fst (run_dtor live)).

(** ** Further readings of the log *)

Definition is_GetLoader (e : event) : bool :=
  match e with GetLoader_call _ _ _ => true | _ => false end.

Definition is_QueryInterface (e : event) : bool :=
  match e with QueryInterface_call _ _ _ _ => true | _ => false end.

Definition is_GetReferenceKey (e : event) : bool :=
  match e with GetReferenceKey_call _ _ _ _ => true | _ => false end.

Definition is_GetFilePathLengthFromKey (e : event) : bool :=
  match e with GetFilePathLengthFromKey_call _ _ _ _ _ => true | _ => false end.

Definition is_GetFilePathFromKey (e : event) : bool :=
  match e with GetFilePathFromKey_call _ _ _ _ _ _ => true | _ => false end.

Definition is_Analyze (e : event) : bool :=
  match e with Analyze_call _ _ _ => true | _ => false end.

(** ** UTF-16, little-endian *)

Definition byte_of_Z (z : Z) : byte :=
  match Byte.of_N (Z.to_N (z mod 256)) with
  | Some b => b
  | None => x00
  end.

(** The bytes of a wide string, low byte first, without terminator. *)
Fixpoint utf16le (s : String) : list byte :=
  match s with
  | [] => []
  | c :: s' => byte_of_Z c :: byte_of_Z (c / 256) :: utf16le s'
  end.

(** ** A native layer that keeps to the interfaces' contracts *)


(** ** Arithmetic, strings and lists *)

Lemma to_UINT32_range z : 0 <= to_UINT32 z < 4294967296.
Proof. unfold to_UINT32. apply Z.mod_pos_bound. lia. Qed.

Lemma to_UINT32_small z : 0 <= z < 4294967296 -> to_UINT32 z = z.
Proof. unfold to_UINT32. intros. apply Z.mod_small. lia. Qed.

Lemma firstn_Z_length {A : Type} (l : list A) :
  forall n, 0 <= n -> Z.of_nat (List.length (firstn_Z n l)) <= n.
Proof.
  induction l as [| a l IH]; intros n Hn; simpl.
  - exact Hn.
  - destruct (0 <? n) eqn:E; simpl List.length.
    + apply Z.ltb_lt in E. specialize (IH (n - 1)). lia.
    + exact Hn.
Qed.

(** [wcs_prefix] finds the characters before the first terminator. *)
Lemma wcs_prefix_spec (ws : list WCHAR) (s : String) :
  wcs_prefix ws = Some s <->
  exists rest, ws = s ++ 0 :: rest /\ (forall c, In c s -> c <> 0).
Proof.
  revert s. induction ws as [| c ws IH]; intros s; simpl.
  - split; [discriminate |]. intros [rest [H _]]. destruct s; discriminate H.
  - destruct (c =? 0) eqn:E.
    + apply Z.eqb_eq in E. subst c. split.
      * intros H. inversion H. subst s. exists ws. split; [reflexivity |].
        intros c [].
      * intros [rest [H Hs]]. destruct s as [| c s]; [reflexivity |].
        inversion H. subst c. exfalso. apply (Hs 0); [left; reflexivity | reflexivity].
    + apply Z.eqb_neq in E. split.
      * intros H. destruct (wcs_prefix ws) as [s' |] eqn:E'; [| discriminate].
        inversion H. subst s. destruct (proj1 (IH s') eq_refl) as [rest [Hws Hs']].
        exists rest. split; [simpl; congruence |].
        intros c' [<- | Hin]; [assumption | apply Hs'; assumption].
      * intros [rest [H Hs]]. destruct s as [| c' s].
        -- inversion H. congruence.
        -- simpl in H. injection H as Hc Hws. subst c'.
           assert (Hrec : wcs_prefix ws = Some s).
           { apply IH. exists rest. split; [assumption |].
             intros c' Hin. apply Hs. right. assumption. }
           rewrite Hrec. reflexivity.
Qed.

Lemma wcs_prefix_length (ws : list WCHAR) (s : String) :
  wcs_prefix ws = Some s -> (List.length s < List.length ws)%nat.
Proof.
  intros H. apply wcs_prefix_spec in H. destruct H as [rest [-> _]].
  rewrite length_app. simpl. lia.
Qed.

Lemma sizeOfFilePath_in_range_spec (len : UINT32) :
  0 <= len <= UINT_MAX ->
  (sizeOfFilePath_in_range len = true <-> len <> UINT_MAX).
Proof.
  intros Hlen. unfold sizeOfFilePath_in_range.
  rewrite andb_true_iff, Z.geb_le, Z.ltb_lt. lia.
Qed.

Lemma to_UINT32_le_UINT_MAX z : 0 <= to_UINT32 z <= UINT_MAX.
Proof. pose proof (to_UINT32_range z). unfold UINT_MAX. lia. Qed.

Lemma in_range_succ (z : Z) :
  sizeOfFilePath_in_range (to_UINT32 z) = true ->
  to_UINT32 (to_UINT32 z + 1) = to_UINT32 z + 1.
Proof.
  intros H. apply sizeOfFilePath_in_range_spec in H; [| apply to_UINT32_le_UINT_MAX].
  pose proof (to_UINT32_le_UINT_MAX z). apply to_UINT32_small.
  unfold UINT_MAX in *. lia.
Qed.

Lemma out_of_range_UINT_MAX (z : Z) :
  sizeOfFilePath_in_range (to_UINT32 z) = false -> to_UINT32 z = UINT_MAX.
Proof.
  intros H. pose proof (sizeOfFilePath_in_range_spec (to_UINT32 z) (to_UINT32_le_UINT_MAX z)) as S.
  destruct (Z.eq_dec (to_UINT32 z) UINT_MAX) as [E | E]; [exact E |].
  apply S in E. congruence.
Qed.

Lemma app_cons_nil {A : Type} (pre : list A) (e : A) (post : list A) :
  pre ++ e :: post = [] -> False.
Proof. destruct pre; discriminate. Qed.

Lemma app_cons_inv {A : Type} (pre : list A) (e : A) (post : list A) (x : A) (xs : list A) :
  pre ++ e :: post = x :: xs ->
  (pre = [] /\ e = x /\ post = xs) \/
  (exists pre', pre = x :: pre' /\ pre' ++ e :: post = xs).
Proof.
  destruct pre as [| y pre]; simpl; intros H; inversion H; subst.
  - left. repeat split.
  - right. exists pre. split; reflexivity.
Qed.

(** ** Proof automation *)

Ltac unfold_run H :=
  cbv [run_GetUriPath run_Analyze run_get run_dtor GetUriPath Analyze FontFile_dtor
       DWriteFontFileNoAddRef_get
       bind ret handle_Value call_Analyze call_GetLoader call_QueryInterface
       call_GetReferenceKey call_GetFilePathLengthFromKey call_GetFilePathFromKey
       ConvertHresultToException Invariant_Assert GC_KeepAlive gcnew_String
       delete_NativeIUnknownWrapper
       try_finally ReleaseInterface emit modify gets get throw failfast undefined
       new_WCHAR_array delete_WCHAR_array no_locals addr_localFontFileLoader
       load store app localFontFileLoader fontFilePath capacity written
       _fontFile Value] in H.

(** Split on the innermost scrutinee the evaluation is stuck on. *)
Ltac split_on H :=
  match type of H with
  | context [match ?x with _ => _ end] =>
      lazymatch x with
      | context [match _ with _ => _ end] => fail
      | _ => destruct x eqn:?
      end
  end.

Ltac bool_facts :=
  repeat match goal with
    | H : (_ =? _) = true |- _ => apply Z.eqb_eq in H
    | H : (_ =? _) = false |- _ => apply Z.eqb_neq in H
    end.

(** A test met twice cannot have gone both ways. *)
Ltac absurd_path :=
  try match goal with
    | C : true = false |- _ => discriminate C
    | C : false = true |- _ => discriminate C
    end.

(** All the ways an operation can run, each with its outcome and its log. *)
Ltac run_in H :=
  unfold_run H;
  repeat (split_on H; cbv beta iota zeta delta [app] in H);
  absurd_path;
  inversion H; subst; clear H; bool_facts.

(** Membership in a log that is written out. *)
Ltac in_log H :=
  simpl in H;
  repeat match type of H with
    | _ \/ _ => destruct H as [H | H]
    | False => contradiction
    end;
  try discriminate H; try (inversion H; subst; clear H).

Ltac known_event :=
  lazymatch goal with
  | |- In _ _ => solve [simpl; repeat (first [ left; reflexivity | right ])]
  end.

(** Every way of cutting a log that is written out at one of its events. *)
Ltac cut_log H :=
  symmetry in H;
  repeat match type of H with
    | _ ++ _ :: _ = [] => destruct (app_cons_nil _ _ _ H)
    | _ ++ _ :: _ = _ :: _ =>
        apply app_cons_inv in H;
        destruct H as [[? [? ?]] | [? [? H]]]; subst
    end.

Ltac pick_event := (left; reflexivity) + (right; pick_event).

Ltac query_status :=
  try match goal with
    | H : to_HRESULT ?z = E_NOINTERFACE |- _ => rewrite H in *
    end.

(** ** Disposal *)

(** C8. For a handle constructed around a native reference, disposal returns
    normally, its only effect is one release of that reference, and it leaves
    the handle cleared; disposing the cleared handle again returns normally,
    does nothing and changes nothing. *)
Theorem C8_dispose_releases_once_and_is_idempotent (fontFile : ptr) :
  fontFile <> NULL ->
  run_dtor (FontFile_ctor fontFile)
    = (Return tt, {| _fontFile := None |}, [Release_call IDWriteFontFile fontFile]) /\
  run_dtor {| _fontFile := None |} = (Return tt, {| _fontFile := None |}, []).
Proof.
  intros Hvalid. split; [| reflexivity].
  apply Z.eqb_neq in Hvalid.
  unfold run_dtor, FontFile_dtor, FontFile_ctor, delete_NativeIUnknownWrapper,
    bind, get, modify, emit, ret.
  simpl. rewrite Hvalid. reflexivity.
Qed.

Lemma C8_witness :
  run_dtor (FontFile_ctor 10)
    = (Return tt, {| _fontFile := None |}, [Release_call IDWriteFontFile 10]) /\
  run_dtor {| _fontFile := None |} = (Return tt, {| _fontFile := None |}, []).
Proof.
  apply (C8_dispose_releases_once_and_is_idempotent 10). unfold NULL. lia.
Defined.

(** ** Use after disposal *)

(** C7. Each of [Analyze], [GetUriPath] and the raw-reference accessor
    reaches the native reference through the handle, [_fontFile->Value], and
    that step tests the handle before anything native is touched.  So after
    disposal, whatever the handle was before, each of them fails at once with
    [NullReferenceException]: no native call is made, no released reference is
    used, and [Analyze] leaves its by-reference parameters as they were.  On
    a handle that holds a native pointer the test passes and the operation
    goes to that very pointer: the accessor returns it, [Analyze] analyses
    it, and [GetUriPath] starts with its [GetLoader]. *)
Theorem C7_operations_fail_fast_after_disposal :
  (forall (N : Native) (this : FontFile) (refs : AnalyzeRefs),
      run_Analyze N (snd (fst (run_dtor this))) refs
        = (Throw NullReferenceException, refs, []) /\
      run_GetUriPath N (snd (fst (run_dtor this)))
        = (Throw NullReferenceException, []) /\
      run_get (snd (fst (run_dtor this)))
        = (Throw NullReferenceException, [])) /\
  (forall (N : Native) (fontFile : ptr) (refs : AnalyzeRefs),
      fontFile <> NULL ->
      (exists b refs' hr out,
          run_Analyze N (FontFile_ctor fontFile) refs
            = (Return b, refs', [Analyze_call fontFile hr out])) /\
      (exists r hr loader rest,
          run_GetUriPath N (FontFile_ctor fontFile)
            = (r, GetLoader_call fontFile hr loader :: rest)) /\
      run_get (FontFile_ctor fontFile) = (Return fontFile, [])).
Proof.
  split.
  - intros N this refs.
    assert (Hcleared : _fontFile (snd (fst (run_dtor this))) = None).
    { destruct this as [[[fontFile]|]]; [| reflexivity].
      unfold run_dtor, FontFile_dtor, delete_NativeIUnknownWrapper,
        bind, get, modify, emit, ret.
      simpl. destruct (fontFile =? NULL); reflexivity. }
    destruct (snd (fst (run_dtor this))) as [h]. simpl in Hcleared. subst h.
    repeat split; reflexivity.
  - intros N fontFile refs Hvalid. split; [| split; [| reflexivity]].
    + destruct (run_Analyze N (FontFile_ctor fontFile) refs) as [[r refs'] t] eqn:H.
      unfold FontFile_ctor in H. run_in H; [contradiction | |];
        eexists _, _, _, _; reflexivity.
    + destruct (run_GetUriPath N (FontFile_ctor fontFile)) as [r t] eqn:H.
      unfold FontFile_ctor in H. run_in H; try contradiction.
      all: eexists _, _, _, _; reflexivity.
Qed.

Lemma C7_witness :
  (run_Analyze local_file disposed untouched
     = (Throw NullReferenceException, untouched, []) /\
   run_GetUriPath local_file disposed = (Throw NullReferenceException, []) /\
   run_get disposed = (Throw NullReferenceException, [])) /\
  ((exists b refs' hr out,
       run_Analyze local_file live untouched
         = (Return b, refs', [Analyze_call 10 hr out])) /\
   (exists r hr loader rest,
       run_GetUriPath local_file live = (r, GetLoader_call 10 hr loader :: rest)) /\
   run_get live = (Return 10, [])).
Proof.
  destruct C7_operations_fail_fast_after_disposal as [Hdisposed Hlive].
  split.
  - exact (Hdisposed local_file live untouched).
  - apply (Hlive local_file 10 untouched). unfold NULL. lia.
Defined.

(** ** Analyze *)

(** C5. On a handle around a non-null native pointer, whatever the native
    analysis answers: if its status is a failing one, [Analyze] returns false
    without raising, leaves the three classification outputs as they were and
    stores the status in [hr]; if its status is a succeeding one and it
    reports the format unsupported, [Analyze] returns false without raising,
    stores the three classifications it was given and the (succeeding) status.
    In both cases the analysis is the one native call made. *)
Theorem C5_Analyze_failure_policy
    (N : Native) (fontFile : ptr) (refs : AnalyzeRefs) (hr : Z) (out : AnalyzeOut) :
  fontFile <> NULL ->
  IDWriteFontFile_Analyze N fontFile = (hr, out) ->
  (FAILED (to_HRESULT hr) = true ->
     run_Analyze N (FontFile_ctor fontFile) refs
       = (Return false,
          {| fontFileType := fontFileType refs;
             fontFaceType := fontFaceType refs;
             numberOfFaces := numberOfFaces refs;
             hr_ref := to_HRESULT hr |},
          [Analyze_call fontFile (to_HRESULT hr)
             {| isSupported := isSupported out;
                dwriteFontFileType := dwriteFontFileType out;
                dwriteFontFaceType := dwriteFontFaceType out;
                numberOfFacesDWrite := to_UINT32 (numberOfFacesDWrite out) |}])) /\
  (FAILED (to_HRESULT hr) = false ->
   isSupported out = 0 ->
     run_Analyze N (FontFile_ctor fontFile) refs
       = (Return false,
          {| fontFileType := dwriteFontFileType out;
             fontFaceType := dwriteFontFaceType out;
             numberOfFaces := to_UINT32 (numberOfFacesDWrite out);
             hr_ref := to_HRESULT hr |},
          [Analyze_call fontFile (to_HRESULT hr)
             {| isSupported := isSupported out;
                dwriteFontFileType := dwriteFontFileType out;
                dwriteFontFaceType := dwriteFontFaceType out;
                numberOfFacesDWrite := to_UINT32 (numberOfFacesDWrite out) |}])).
Proof.
  intros Hvalid Hnative.
  destruct (run_Analyze N (FontFile_ctor fontFile) refs) as [[r refs'] t] eqn:H.
  unfold FontFile_ctor in H. run_in H; [contradiction | |].
  all: injection Hnative as -> ->.
  - split; [intros _; reflexivity | intros Hok; congruence].
  - split; [intros Hfailed; congruence |].
    intros _ Hunsupported. rewrite Hunsupported. reflexivity.
Qed.

Lemma C5_witness :
  run_Analyze analyze_fails live untouched
    = (Return false,
       {| fontFileType := 77; fontFaceType := 78; numberOfFaces := 79;
          hr_ref := E_FAIL |},
       [Analyze_call 10 E_FAIL truetype_one_face]) /\
  run_Analyze analyze_unsupported live untouched
    = (Return false,
       {| fontFileType := 0; fontFaceType := 0; numberOfFaces := 0;
          hr_ref := S_OK |},
       [Analyze_call 10 S_OK unknown_format]).
Proof.
  split.
  - destruct (C5_Analyze_failure_policy analyze_fails 10 untouched
                E_FAIL truetype_one_face)
      as [Hfailed _]; [unfold NULL; lia | reflexivity |].
    exact (Hfailed eq_refl).
  - destruct (C5_Analyze_failure_policy analyze_unsupported 10 untouched
                S_OK unknown_format)
      as [_ Hunsupported]; [unfold NULL; lia | reflexivity |].
    exact (Hunsupported eq_refl eq_refl).
Defined.

(** C9. Whenever the native analysis is called and answers, [Analyze] returns
    a boolean that is true exactly when the status succeeded and the native
    [isSupported] flag is nonzero, and [hr] holds the status.  So false is
    returned both for a failed analysis and for a file analysed successfully
    but unsupported; the two differ only in the status left in [hr]. *)
Theorem C9_Analyze_true_iff_succeeded_and_supported :
  (forall (N : Native) (this : FontFile) (refs refs' : AnalyzeRefs)
          (r : result bool) (t : list event) (p : ptr) (hr : HRESULT)
          (out : AnalyzeOut),
      run_Analyze N this refs = (r, refs', t) ->
      In (Analyze_call p hr out) t ->
      exists b : bool,
        r = Return b /\
        (b = true <-> FAILED hr = false /\ isSupported out <> 0) /\
        hr_ref refs' = hr) /\
  (fst (fst (run_Analyze analyze_fails live untouched))
     = fst (fst (run_Analyze analyze_unsupported live untouched)) /\
   FAILED (hr_ref (snd (fst (run_Analyze analyze_fails live untouched))))
     = true /\
   FAILED (hr_ref (snd (fst (run_Analyze analyze_unsupported live untouched))))
     = false).
Proof.
  split; [| repeat split; reflexivity].
  intros N this refs refs' r t p hr out H Hin.
  destruct this as [[[fontFile]|]]; run_in H; in_log Hin.
  - exists false. repeat split; try reflexivity; intros; try discriminate.
    destruct H as [H _]. congruence.
  - eexists. split; [reflexivity |]. simpl. split; [| reflexivity]. split.
    + intros Hb. split; [assumption |].
      apply Z.eqb_neq. apply negb_true_iff. exact Hb.
    + intros [_ Hs]. apply Z.eqb_neq in Hs. rewrite Hs. reflexivity.
Qed.

Lemma C9_witness :
  exists b : bool,
    fst (fst (run_Analyze local_file live untouched)) = Return b /\
    b = true.
Proof.
  destruct (C9_Analyze_true_iff_succeeded_and_supported) as [Hall _].
  destruct (Hall local_file live untouched
              {| fontFileType := 2; fontFaceType := 1; numberOfFaces := 1; hr_ref := S_OK |}
              (Return true) [Analyze_call 10 S_OK truetype_one_face]
              10 S_OK truetype_one_face eq_refl (or_introl eq_refl))
    as [b [Hr [Hiff _]]].
  exists b. split; [exact Hr |].
  apply Hiff. split; [reflexivity | discriminate].
Defined.

(** ** GetUriPath: failures *)

(** A local font file, resolved: the whole run. *)
Example local_file_is_resolved :
  run_GetUriPath local_file live
    = (Return [67; 58; 92; 102],
       [GetLoader_call 10 S_OK 20;
        QueryInterface_call 20 _guidForIDWriteLocalFontFileLoader S_OK 30;
        GetReferenceKey_call 10 S_OK key_a_b 8;
        GetFilePathLengthFromKey_call 30 key_a_b 8 S_OK 4;
        new_WCHAR 5;
        GetFilePathFromKey_call 30 key_a_b 8 5 S_OK path_C_f;
        Release_call IDWriteLocalFontFileLoader 30;
        delete_WCHAR 5]).
Proof. reflexivity. Qed.

(** A failure at each of the four steps: the same error, and a log that
    stops at the failing call but for the clean-up. *)
Example failure_at_each_step :
  run_GetUriPath loader_fails live
    = (Throw (HresultException E_FAIL GetUriPath_name),
       [GetLoader_call 10 E_FAIL NULL]) /\
  run_GetUriPath key_fails live
    = (Throw (HresultException E_FAIL GetUriPath_name),
       [GetLoader_call 10 S_OK 20;
        QueryInterface_call 20 _guidForIDWriteLocalFontFileLoader S_OK 30;
        GetReferenceKey_call 10 E_FAIL [] 0;
        Release_call IDWriteLocalFontFileLoader 30]) /\
  run_GetUriPath length_fails live
    = (Throw (HresultException E_FAIL GetUriPath_name),
       [GetLoader_call 10 S_OK 20;
        QueryInterface_call 20 _guidForIDWriteLocalFontFileLoader S_OK 30;
        GetReferenceKey_call 10 S_OK key_a_b 8;
        GetFilePathLengthFromKey_call 30 key_a_b 8 E_FAIL 0;
        Release_call IDWriteLocalFontFileLoader 30]) /\
  run_GetUriPath path_fails live
    = (Throw (HresultException E_FAIL GetUriPath_name),
       [GetLoader_call 10 S_OK 20;
        QueryInterface_call 20 _guidForIDWriteLocalFontFileLoader S_OK 30;
        GetReferenceKey_call 10 S_OK key_a_b 8;
        GetFilePathLengthFromKey_call 30 key_a_b 8 S_OK 4;
        new_WCHAR 5;
        GetFilePathFromKey_call 30 key_a_b 8 5 E_FAIL [];
        Release_call IDWriteLocalFontFileLoader 30;
        delete_WCHAR 5]).
Proof. repeat split; reflexivity. Qed.

(** C1 (as the code has it). A failing status at loader retrieval,
    reference-key retrieval, path-length retrieval or path retrieval ends the
    protocol: nothing but the clean-up follows the failing call in the log, and
    [GetUriPath] raises an error that carries that status together with the
    name of the method, [GetUriPath_name], the same text at all four steps.
    A capability query that answers [E_NOINTERFACE] is followed by the fetch
    of the reference key and by nothing else.  Every status error raised is
    that of a failed one of the four steps. *)
Theorem C1_failing_step_aborts_and_raises
    (N : Native) (this : FontFile) (r : result String) (t : list event) :
  run_GetUriPath N this = (r, t) ->
  (forall pre e post s hr,
      t = pre ++ e :: post ->
      step_of e = Some (s, hr) ->
      FAILED hr = true ->
      r = Throw (HresultException hr GetUriPath_name) /\
      Forall (fun e' => is_cleanup e' = true) post) /\
  (forall loader iid q,
      In (QueryInterface_call loader iid E_NOINTERFACE q) t ->
      exists fontFile hrLoader hrKey key size,
        t = [GetLoader_call fontFile hrLoader loader;
             QueryInterface_call loader iid E_NOINTERFACE q;
             GetReferenceKey_call fontFile hrKey key size]) /\
  (forall hr msg,
      r = Throw (HresultException hr msg) ->
      msg = GetUriPath_name /\
      exists e s, In e t /\ step_of e = Some (s, hr) /\ FAILED hr = true).
Proof.
  intros H. destruct this as [[[fontFile]|]]; run_in H.
  all: split; [| split].
  all: try (intros ? ? ? ? ? Hcut Hstep Hfailed; cut_log Hcut;
            simpl in Hstep; try discriminate Hstep;
            inversion Hstep; subst; clear Hstep; try congruence;
            (split; [reflexivity | repeat constructor])).
  all: try (intros ? ? ? Hin; in_log Hin; try congruence; query_status;
            eexists _, _, _, _, _; reflexivity).
  all: intros ? ? Hr; inversion Hr; subst; clear Hr;
       (split; [reflexivity |]); eexists _, _;
       (split; [pick_event | split; [reflexivity | assumption]]).
Qed.

Lemma C1_witness :
  fst (run_GetUriPath path_fails live)
    = Throw (HresultException E_FAIL GetUriPath_name) /\
  Forall (fun e' => is_cleanup e' = true)
         [Release_call IDWriteLocalFontFileLoader 30; delete_WCHAR 5].
Proof.
  destruct (C1_failing_step_aborts_and_raises path_fails live _ _ eq_refl)
    as [Hstep _].
  apply (Hstep
           [GetLoader_call 10 S_OK 20;
            QueryInterface_call 20 _guidForIDWriteLocalFontFileLoader S_OK 30;
            GetReferenceKey_call 10 S_OK key_a_b 8;
            GetFilePathLengthFromKey_call 30 key_a_b 8 S_OK 4;
            new_WCHAR 5]
           (GetFilePathFromKey_call 30 key_a_b 8 5 E_FAIL [])
           [Release_call IDWriteLocalFontFileLoader 30; delete_WCHAR 5]
           PathRetrieval E_FAIL eq_refl eq_refl eq_refl).
Defined.

(** C1, as stated, fails: the error does not tell which step failed.  The
    loader retrieval of one font file and the path retrieval of another fail
    with the same status, and [GetUriPath] raises the same error for both. *)
Lemma C1_counterexample :
  failed_step (snd (run_GetUriPath loader_fails live)) = Some LoaderRetrieval /\
  failed_step (snd (run_GetUriPath path_fails live)) = Some PathRetrieval /\
  fst (run_GetUriPath loader_fails live) = fst (run_GetUriPath path_fails live) /\
  fst (run_GetUriPath loader_fails live)
    = Throw (HresultException E_FAIL GetUriPath_name).
Proof.
  repeat split; reflexivity.
Qed.

(** The capability query is the one call whose failure is not looked at:
    only [E_NOINTERFACE] is told apart.  After any other failing status the
    local-file branch runs with the pointer the failed query left, here
    [NULL], and calls through it. *)
Example query_failure_goes_unnoticed :
  run_GetUriPath query_fails live
    = (Undefined NullPointerCall,
       [GetLoader_call 10 S_OK 20;
        QueryInterface_call 20 _guidForIDWriteLocalFontFileLoader E_FAIL NULL;
        GetReferenceKey_call 10 S_OK key_a_b 8]).
Proof. reflexivity. Qed.

(** ** GetUriPath: the fallback *)

(** C2 (as the code has it). When the capability query answers
    [E_NOINTERFACE], [GetUriPath] makes one more call, the fetch of the
    reference key, and neither of the local-file calls.  If the fetch succeeds
    it returns the key's bytes read as a null-terminated wide string; if the
    fetch fails it raises that failure. *)
Theorem C2_fallback_returns_reference_key
    (N : Native) (this : FontFile) (r : result String) (t : list event)
    (loader : ptr) (iid : GUID) (q : ptr) :
  run_GetUriPath N this = (r, t) ->
  In (QueryInterface_call loader iid E_NOINTERFACE q) t ->
  exists fontFile hrLoader hrKey key size,
    t = [GetLoader_call fontFile hrLoader loader;
         QueryInterface_call loader iid E_NOINTERFACE q;
         GetReferenceKey_call fontFile hrKey key size] /\
    Forall (fun e => is_local_file_call e = false) t /\
    (FAILED hrKey = false ->
       forall s, wcs_prefix (wchars_of_bytes key) = Some s -> r = Return s) /\
    (FAILED hrKey = true -> r = Throw (HresultException hrKey GetUriPath_name)).
Proof.
  intros H Hin. destruct this as [[[fontFile]|]]; run_in H; in_log Hin.
  all: try congruence.
  all: query_status; eexists _, _, _, _, _; split; [reflexivity |].
  all: split; [repeat constructor |].
  all: split; [intros ? ? Hs | intros ?]; congruence.
Qed.

Lemma C2_witness :
  exists fontFile hrLoader hrKey key size,
    snd (run_GetUriPath custom_loader live)
      = [GetLoader_call fontFile hrLoader 20;
         QueryInterface_call 20 _guidForIDWriteLocalFontFileLoader E_NOINTERFACE NULL;
         GetReferenceKey_call fontFile hrKey key size] /\
    Forall (fun e => is_local_file_call e = false)
           (snd (run_GetUriPath custom_loader live)) /\
    (FAILED hrKey = false ->
       forall s, wcs_prefix (wchars_of_bytes key) = Some s ->
                 fst (run_GetUriPath custom_loader live) = Return s) /\
    (FAILED hrKey = true ->
       fst (run_GetUriPath custom_loader live)
         = Throw (HresultException hrKey GetUriPath_name)).
Proof.
  exact (C2_fallback_returns_reference_key custom_loader live _ _
           20 _guidForIDWriteLocalFontFileLoader NULL eq_refl
           (or_intror (or_introl eq_refl))).
Defined.

(** What the fallback returns for the key "a.b". *)
Example fallback_returns_a_b :
  fst (run_GetUriPath custom_loader live) = Return [97; 46; 98].
Proof. reflexivity. Qed.

(** C2, as stated, fails: with no local-file interface [GetUriPath] still
    raises when the font file does not give its reference key. *)
Lemma C2_counterexample :
  In (QueryInterface_call 20 _guidForIDWriteLocalFontFileLoader E_NOINTERFACE NULL)
     (snd (run_GetUriPath custom_loader_key_fails live)) /\
  fst (run_GetUriPath custom_loader_key_fails live)
    = Throw (HresultException E_FAIL GetUriPath_name).
Proof.
  split; [right; left; reflexivity | reflexivity].
Qed.

(** ** GetUriPath: the local-file branch *)

(** C4 (as the code has it). When [GetUriPath] returns after a path-length
    query, the array it allocated holds the reported length plus one
    characters, that same number is the capacity passed to the path retrieval,
    and the string returned is made of the characters the loader wrote before
    its first terminator.  So the string is never longer than the reported
    length, and has exactly that length if and only if the loader wrote that
    many non-null characters before the terminator. *)
Theorem C4_buffer_is_length_plus_one
    (N : Native) (this : FontFile) (s : String) (t : list event)
    (q : ptr) (key : list byte) (size : UINT32) (hr : HRESULT) (len : UINT32) :
  run_GetUriPath N this = (Return s, t) ->
  In (GetFilePathLengthFromKey_call q key size hr len) t ->
  In (new_WCHAR (len + 1)) t /\
  exists hrPath path,
    In (GetFilePathFromKey_call q key size (len + 1) hrPath path) t /\
    wcs_prefix path = Some s /\
    Z.of_nat (List.length s) <= len /\
    (Z.of_nat (List.length s) = len <->
     exists body rest,
       path = body ++ 0 :: rest /\
       (forall c, In c body -> c <> 0) /\
       Z.of_nat (List.length body) = len).
Proof.
  intros H Hin. destruct this as [[[fontFile]|]]; run_in H; in_log Hin.
  match goal with
  | Hrange : sizeOfFilePath_in_range (to_UINT32 ?z) = true |- _ =>
      pose proof (to_UINT32_range z) as Hlen;
      rewrite (in_range_succ z Hrange) in *
  end.
  match goal with
  | Hs : wcs_prefix (firstn_Z ?n ?l) = Some s |- _ =>
      pose proof (firstn_Z_length l n ltac:(lia)) as Hcap;
      pose proof (wcs_prefix_length _ _ Hs) as Hshort;
      pose proof (proj1 (wcs_prefix_spec _ _) Hs) as [rest [Hpath Hnonnull]]
  end.
  split; [known_event |]. eexists _, _.
  split; [known_event |]. split; [eassumption |]. split; [lia |].
  split.
  - intros Hexact. exists s, rest. repeat split; assumption.
  - intros [body [rest' [Hbody [Hbody_nonnull Hbody_len]]]].
    assert (Hsame : Some s = Some body).
    { match goal with
      | Hs : wcs_prefix _ = Some s |- _ => rewrite <- Hs
      end.
      apply wcs_prefix_spec. exists rest'. split; assumption. }
    injection Hsame as ->. exact Hbody_len.
Qed.

Lemma C4_witness :
  In (new_WCHAR (4 + 1)) (snd (run_GetUriPath local_file live)) /\
  exists hrPath path,
    In (GetFilePathFromKey_call 30 key_a_b 8 (4 + 1) hrPath path)
       (snd (run_GetUriPath local_file live)) /\
    wcs_prefix path = Some [67; 58; 92; 102] /\
    Z.of_nat (List.length [67; 58; 92; 102]) <= 4 /\
    (Z.of_nat (List.length [67; 58; 92; 102]) = 4 <->
     exists body rest,
       path = body ++ 0 :: rest /\
       (forall c, In c body -> c <> 0) /\
       Z.of_nat (List.length body) = 4).
Proof.
  apply (C4_buffer_is_length_plus_one local_file live [67; 58; 92; 102] _
           30 key_a_b 8 S_OK 4 eq_refl).
  right; right; right; left; reflexivity.
Defined.

(** C4, as stated, fails: the loader announces 4 characters and writes "C:";
    [GetUriPath] returns, and the string it returns has 2 characters. *)
Lemma C4_counterexample :
  In (GetFilePathLengthFromKey_call 30 key_a_b 8 S_OK 4)
     (snd (run_GetUriPath short_path live)) /\
  fst (run_GetUriPath short_path live) = Return [67; 58] /\
  Z.of_nat (List.length [67; 58]) < 4.
Proof.
  split; [right; right; right; left; reflexivity |].
  split; reflexivity.
Qed.

(** C6 (as the code has it). The condition asserted on the path length holds
    for every 32-bit count but one, [UINT_MAX]: it is what keeps the length
    plus one from wrapping around, and no bound on a plausible length.  After a
    successful length query that reports [UINT_MAX], [GetUriPath] fails fast,
    which is not an error it raises, and allocates nothing.  For any other
    length it does not fail fast and goes on to allocate the array. *)
Theorem C6_invariant_rejects_only_UINT_MAX :
  (forall len : UINT32,
      0 <= len <= UINT_MAX ->
      (sizeOfFilePath_in_range len = true <-> len <> UINT_MAX)) /\
  (forall (N : Native) (this : FontFile) (r : result String) (t : list event)
          (q : ptr) (key : list byte) (size : UINT32) (hr : HRESULT) (len : UINT32),
      run_GetUriPath N this = (r, t) ->
      In (GetFilePathLengthFromKey_call q key size hr len) t ->
      FAILED hr = false ->
      (len = UINT_MAX -> r = FailFast /\ count is_new t = 0%nat) /\
      (len <> UINT_MAX ->
         r <> FailFast /\ In (new_WCHAR (len + 1)) t)).
Proof.
  split; [exact sizeOfFilePath_in_range_spec |].
  intros N this r t q key size hr len H Hin Hok.
  destruct this as [[[fontFile]|]]; run_in H; in_log Hin.
  all: try congruence.
  all: match goal with
       | Hrange : sizeOfFilePath_in_range (to_UINT32 ?z) = false |- _ =>
           pose proof (out_of_range_UINT_MAX z Hrange) as Hmax;
           split; [intros _ | intros Hother; congruence];
           split; reflexivity
       | Hrange : sizeOfFilePath_in_range (to_UINT32 ?z) = true |- _ =>
           pose proof (in_range_succ z Hrange) as Hsucc;
           apply sizeOfFilePath_in_range_spec in Hrange;
           [| apply to_UINT32_le_UINT_MAX];
           split; [intros Hmax; congruence | intros _];
           split; [discriminate | rewrite Hsucc; known_event]
       end.
Qed.

Lemma C6_witness :
  fst (run_GetUriPath length_UINT_MAX live) = FailFast /\
  count is_new (snd (run_GetUriPath length_UINT_MAX live)) = 0%nat.
Proof.
  destruct C6_invariant_rejects_only_UINT_MAX as [_ Hall].
  destruct (Hall length_UINT_MAX live _ _ 30 key_a_b 8 S_OK UINT_MAX eq_refl
              (or_intror (or_intror (or_intror (or_introl eq_refl)))) eq_refl)
    as [Hmax _].
  apply Hmax. reflexivity.
Defined.

(** C6, as stated, fails: the check is no test for a small or moderate count.
    It lets 4294967294 through, after which an array of 4294967295 characters
    is allocated, and whatever bound it enforces on a 32-bit count is no lower
    than that. *)
Lemma C6_counterexample :
  sizeOfFilePath_in_range 4294967294 = true /\
  In (new_WCHAR 4294967295) (snd (run_GetUriPath length_huge live)) /\
  (forall bound : Z,
      (forall len, 0 <= len <= UINT_MAX ->
                   sizeOfFilePath_in_range len = true -> len <= bound) ->
      4294967294 <= bound).
Proof.
  split; [reflexivity |].
  split; [right; right; right; right; left; reflexivity |].
  intros bound Hbound. apply Hbound; [unfold UINT_MAX; lia | reflexivity].
Qed.

(** ** GetUriPath: what is released *)

(** C3. The release helper does nothing through a null address or on a
    variable that holds [NULL]; otherwise it releases the interface once and
    clears the variable.  Whenever the capability query handed out a non-null
    pointer without answering [E_NOINTERFACE], and [GetUriPath] returns or
    raises, the log holds exactly one release, that of this pointer through
    the local-file interface, and exactly one [delete []] for the array, of
    the same size, if one was allocated (at most one is). *)
Theorem C3_released_and_freed_exactly_once :
  (forall (N : Native) (this : FontFile) (r : result String) (t : list event)
          (loader : ptr) (iid : GUID) (hr : HRESULT) (q : ptr),
      run_GetUriPath N this = (r, t) ->
      In (QueryInterface_call loader iid hr q) t ->
      hr <> E_NOINTERFACE ->
      q <> NULL ->
      (exists s, r = Return s) \/ (exists e, r = Throw e) ->
      count is_Release t = 1%nat /\
      In (Release_call IDWriteLocalFontFileLoader q) t /\
      (count is_new t <= 1)%nat /\
      count is_delete t = count is_new t /\
      (forall n, In (new_WCHAR n) t -> In (delete_WCHAR n) t)) /\
  (forall (l : GetUriPathLocals) (t : list event),
      ReleaseInterface None l t = (Return tt, l, t)) /\
  (forall (l : GetUriPathLocals) (t : list event),
      localFontFileLoader l = NULL ->
      ReleaseInterface (Some addr_localFontFileLoader) l t = (Return tt, l, t)) /\
  (forall (l : GetUriPathLocals) (t : list event),
      localFontFileLoader l <> NULL ->
      ReleaseInterface (Some addr_localFontFileLoader) l t
        = (Return tt,
           store addr_localFontFileLoader NULL l,
           t ++ [Release_call IDWriteLocalFontFileLoader (localFontFileLoader l)]) /\
      localFontFileLoader (store addr_localFontFileLoader NULL l) = NULL).
Proof.
  split; [| split; [| split]].
  - intros N this r t loader iid hr q H Hin Hhr Hq Hr.
    destruct this as [[[fontFile]|]]; run_in H; in_log Hin.
    all: try congruence.
    all: try (destruct Hr as [[? Hr] | [? Hr]]; discriminate Hr).
    all: split; [reflexivity | split; [known_event | split; [unfold count; simpl; lia |]]].
    all: split; [reflexivity |].
    all: intros ? Hin; in_log Hin; known_event.
  - reflexivity.
  - intros l t Hnull. unfold ReleaseInterface, bind, gets. simpl.
    rewrite Hnull. reflexivity.
  - intros l t Hset. unfold ReleaseInterface, bind, gets, emit, modify. simpl.
    apply Z.eqb_neq in Hset. rewrite Hset. split; reflexivity.
Qed.

Lemma C3_witness :
  count is_Release (snd (run_GetUriPath path_fails live)) = 1%nat /\
  In (Release_call IDWriteLocalFontFileLoader 30)
     (snd (run_GetUriPath path_fails live)) /\
  (count is_new (snd (run_GetUriPath path_fails live)) <= 1)%nat /\
  count is_delete (snd (run_GetUriPath path_fails live))
    = count is_new (snd (run_GetUriPath path_fails live)) /\
  (forall n, In (new_WCHAR n) (snd (run_GetUriPath path_fails live)) ->
             In (delete_WCHAR n) (snd (run_GetUriPath path_fails live))).
Proof.
  destruct C3_released_and_freed_exactly_once as [Hall _].
  apply (Hall path_fails live _ _
              20 _guidForIDWriteLocalFontFileLoader S_OK 30 eq_refl).
  - right; left; reflexivity.
  - discriminate.
  - discriminate.
  - right. eexists. reflexivity.
Defined.

(** C10. Every release [GetUriPath] makes goes through the local-file
    interface pointer, on the non-null pointer a capability query that did not
    answer [E_NOINTERFACE] produced; there is at most one; and none goes
    through the loader pointer [GetLoader] returned. *)
Theorem C10_loader_is_never_released
    (N : Native) (this : FontFile) (r : result String) (t : list event) :
  run_GetUriPath N this = (r, t) ->
  (forall via p, In (Release_call via p) t ->
     via = IDWriteLocalFontFileLoader /\ p <> NULL /\
     exists loader iid hr,
       In (QueryInterface_call loader iid hr p) t /\ hr <> E_NOINTERFACE) /\
  (count is_Release t <= 1)%nat /\
  (forall p, ~ In (Release_call IDWriteFontFileLoader p) t).
Proof.
  intros H. destruct this as [[[fontFile]|]]; run_in H.
  all: split; [| split; [unfold count; simpl; lia |]].
  all: try (intros ? ? Hin; in_log Hin;
            (split; [reflexivity | split; [assumption |]]);
            eexists _, _, _; (split; [known_event | assumption])).
  all: intros ? Hin; in_log Hin.
Qed.

Lemma C10_witness :
  (IDWriteLocalFontFileLoader = IDWriteLocalFontFileLoader /\ 30 <> NULL /\
   exists loader iid hr,
     In (QueryInterface_call loader iid hr 30) (snd (run_GetUriPath local_file live)) /\
     hr <> E_NOINTERFACE) /\
  (count is_Release (snd (run_GetUriPath local_file live)) <= 1)%nat /\
  (forall p, ~ In (Release_call IDWriteFontFileLoader p)
                  (snd (run_GetUriPath local_file live))).
Proof.
  destruct (C10_loader_is_never_released local_file live _ _ eq_refl)
    as [Hrelease Hrest].
  split; [| exact Hrest].
  apply (Hrelease IDWriteLocalFontFileLoader 30).
  do 6 right. left. reflexivity.
Defined.

(** * Further properties of the operations *)

(** ** Analyze *)

(** X1. On a handle around a non-null native pointer [Analyze] always returns:
    it makes exactly one native call, the analysis of that pointer, and leaves
    the status of that call in [hr]. *)
Theorem X1_Analyze_returns_after_one_call
    (N : Native) (fontFile : ptr) (refs : AnalyzeRefs) :
  fontFile <> NULL ->
  exists b refs' hr out,
    run_Analyze N (FontFile_ctor fontFile) refs
      = (Return b, refs', [Analyze_call fontFile hr out]) /\
    hr_ref refs' = hr.
Proof.
  intros Hvalid.
  destruct (run_Analyze N (FontFile_ctor fontFile) refs) as [[r refs'] t] eqn:H.
  unfold FontFile_ctor in H. run_in H; [contradiction | |];
    eexists _, _, _, _; split; reflexivity.
Qed.

Lemma X1_witness :
  exists b refs' hr out,
    run_Analyze analyze_fails (FontFile_ctor 10) untouched
      = (Return b, refs', [Analyze_call 10 hr out]) /\
    hr_ref refs' = hr.
Proof.
  apply (X1_Analyze_returns_after_one_call analyze_fails 10 untouched).
  unfold NULL. lia.
Defined.

(** X2. Whenever the native analysis succeeds, [Analyze] stores the three
    classifications exactly as the native call answered them, whether the
    format is supported or not, and returns whether [isSupported] is nonzero. *)
Theorem X2_Analyze_success_stores_outputs
    (N : Native) (this : FontFile) (refs refs' : AnalyzeRefs)
    (r : result bool) (t : list event) (p : ptr) (hr : HRESULT) (out : AnalyzeOut) :
  run_Analyze N this refs = (r, refs', t) ->
  In (Analyze_call p hr out) t ->
  FAILED hr = false ->
  r = Return (negb (isSupported out =? 0)) /\
  refs' = {| fontFileType := dwriteFontFileType out;
             fontFaceType := dwriteFontFaceType out;
             numberOfFaces := numberOfFacesDWrite out;
             hr_ref := hr |}.
Proof.
  intros H Hin Hok. destruct this as [[[fontFile]|]]; run_in H; in_log Hin.
  - congruence.
  - split; reflexivity.
Qed.

Lemma X2_witness :
  fst (fst (run_Analyze local_file live untouched)) = Return true /\
  snd (fst (run_Analyze local_file live untouched))
    = {| fontFileType := 2; fontFaceType := 1; numberOfFaces := 1; hr_ref := S_OK |}.
Proof.
  apply (X2_Analyze_success_stores_outputs local_file live untouched _ _
           [Analyze_call 10 S_OK truetype_one_face] 10 S_OK truetype_one_face
           eq_refl (or_introl eq_refl) eq_refl).
Defined.

(** ** GetUriPath: what is called, and with what *)

(** X4. [GetUriPath] calls through a [NULL] pointer only in three cases: the
    handle wraps [NULL]; [GetLoader] succeeded but handed out [NULL]; or the
    capability query left [NULL] without answering [E_NOINTERFACE]. *)
Theorem X4_NULL_is_called_through_only_when_handed_out
    (N : Native) (this : FontFile) (r : result String) (t : list event) :
  run_GetUriPath N this = (r, t) ->
  r = Undefined NullPointerCall ->
  (t = [] /\ exists w, _fontFile this = Some w /\ Value w = NULL) \/
  (exists p hr, t = [GetLoader_call p hr NULL] /\ FAILED hr = false) \/
  (exists loader iid hr,
      In (QueryInterface_call loader iid hr NULL) t /\ hr <> E_NOINTERFACE).
Proof.
  intros H ->. destruct this as [[[fontFile]|]]; run_in H; subst.
  - left. split; [reflexivity |]. eexists. split; reflexivity.
  - right. left. eexists _, _. split; [reflexivity | assumption].
  - right. right. eexists _, _, _. split; [known_event | assumption].
Qed.

Lemma X4_witness :
  (snd (run_GetUriPath query_fails live) = [] /\
   exists w, _fontFile live = Some w /\ Value w = NULL) \/
  (exists p hr,
      snd (run_GetUriPath query_fails live) = [GetLoader_call p hr NULL] /\
      FAILED hr = false) \/
  (exists loader iid hr,
      In (QueryInterface_call loader iid hr NULL) (snd (run_GetUriPath query_fails live)) /\
      hr <> E_NOINTERFACE).
Proof.
  exact (X4_NULL_is_called_through_only_when_handed_out query_fails live _ _
           eq_refl eq_refl).
Defined.

(** X5. Every native call [GetUriPath] makes takes its arguments from the
    handle or from the answers of the calls before it: [GetLoader] and
    [GetReferenceKey] go to the wrapped pointer; the capability query goes to
    the loader a successful [GetLoader] returned, for the identifier of the
    local-file interface; the path-length query goes to the pointer that query
    left, with the key and size a successful [GetReferenceKey] returned; the
    path retrieval goes to the same pointer with the same key and size, after
    a successful length query, with the reported length plus one as capacity. *)
Theorem X5_arguments_come_from_earlier_answers (N : Native) (this : FontFile) :
  (forall p hr loader,
      In (GetLoader_call p hr loader) (snd (run_GetUriPath N this)) ->
      _fontFile this = Some {| Value := p |}) /\
  (forall loader iid hr q,
      In (QueryInterface_call loader iid hr q) (snd (run_GetUriPath N this)) ->
      iid = _guidForIDWriteLocalFontFileLoader /\
      exists p hrLoader,
        In (GetLoader_call p hrLoader loader) (snd (run_GetUriPath N this)) /\
        FAILED hrLoader = false) /\
  (forall p hr key size,
      In (GetReferenceKey_call p hr key size) (snd (run_GetUriPath N this)) ->
      _fontFile this = Some {| Value := p |}) /\
  (forall q key size hr len,
      In (GetFilePathLengthFromKey_call q key size hr len) (snd (run_GetUriPath N this)) ->
      exists loader iid hrQuery p hrKey,
        In (QueryInterface_call loader iid hrQuery q) (snd (run_GetUriPath N this)) /\
        hrQuery <> E_NOINTERFACE /\
        In (GetReferenceKey_call p hrKey key size) (snd (run_GetUriPath N this)) /\
        FAILED hrKey = false) /\
  (forall q key size bufsize hr path,
      In (GetFilePathFromKey_call q key size bufsize hr path)
         (snd (run_GetUriPath N this)) ->
      exists hrLength len,
        In (GetFilePathLengthFromKey_call q key size hrLength len)
           (snd (run_GetUriPath N this)) /\
        FAILED hrLength = false /\
        bufsize = len + 1).
Proof.
  destruct (run_GetUriPath N this) as [r t] eqn:H. simpl snd.
  destruct this as [[[fontFile]|]]; run_in H.
  all: split; [intros ? ? ? Hin; in_log Hin; reflexivity |].
  all: split; [intros ? ? ? ? Hin; in_log Hin;
               (split; [reflexivity |]); eexists _, _;
               (split; [known_event | assumption]) |].
  all: split; [intros ? ? ? ? Hin; in_log Hin; reflexivity |].
  all: split; [intros ? ? ? ? ? Hin; in_log Hin;
               eexists _, _, _, _, _;
               (split; [known_event | split; [assumption | split; [known_event | assumption]]]) |].
  all: intros ? ? ? ? ? ? Hin; in_log Hin.
  all: match goal with
       | Hrange : sizeOfFilePath_in_range (to_UINT32 ?z) = true |- _ =>
           eexists _, _;
           (split; [known_event | split; [assumption | exact (in_range_succ z Hrange)]])
       end.
Qed.

(** X6. In one run [GetUriPath] calls each native method at most once, and
    never the analysis. *)
Theorem X6_each_native_method_at_most_once (N : Native) (this : FontFile) :
  (count is_GetLoader (snd (run_GetUriPath N this)) <= 1)%nat /\
  (count is_QueryInterface (snd (run_GetUriPath N this)) <= 1)%nat /\
  (count is_GetReferenceKey (snd (run_GetUriPath N this)) <= 1)%nat /\
  (count is_GetFilePathLengthFromKey (snd (run_GetUriPath N this)) <= 1)%nat /\
  (count is_GetFilePathFromKey (snd (run_GetUriPath N this)) <= 1)%nat /\
  count is_Analyze (snd (run_GetUriPath N this)) = 0%nat.
Proof.
  destruct (run_GetUriPath N this) as [r t] eqn:H. simpl snd.
  destruct this as [[[fontFile]|]]; run_in H.
  all: unfold count; simpl; repeat split; lia.
Qed.

(** ** GetUriPath: the array *)

(** X7. Every array [GetUriPath] allocates has between 1 and [UINT_MAX]
    characters: one more than a length a successful query reported, never
    wrapped around to zero.  The capacity given to the path retrieval is the
    size of an array that was allocated, and only an array that was allocated
    is deleted. *)
Theorem X7_array_is_sized_and_owned (N : Native) (this : FontFile) :
  (forall n,
      In (new_WCHAR n) (snd (run_GetUriPath N this)) ->
      1 <= n <= UINT_MAX /\
      exists q key size hr,
        In (GetFilePathLengthFromKey_call q key size hr (n - 1))
           (snd (run_GetUriPath N this)) /\
        FAILED hr = false) /\
  (forall q key size bufsize hr path,
      In (GetFilePathFromKey_call q key size bufsize hr path)
         (snd (run_GetUriPath N this)) ->
      In (new_WCHAR bufsize) (snd (run_GetUriPath N this))) /\
  (forall n,
      In (delete_WCHAR n) (snd (run_GetUriPath N this)) ->
      In (new_WCHAR n) (snd (run_GetUriPath N this))).
Proof.
  destruct (run_GetUriPath N this) as [r t] eqn:H. simpl snd.
  destruct this as [[[fontFile]|]]; run_in H.
  all: split; [| split; intros; match goal with Hin : In _ _ |- _ => in_log Hin end;
                 known_event].
  all: intros ? Hin; in_log Hin.
  all: match goal with
       | Hrange : sizeOfFilePath_in_range (to_UINT32 ?z) = true |- _ =>
           rewrite (in_range_succ z Hrange) in *;
           pose proof (to_UINT32_le_UINT_MAX z) as Hlen;
           apply sizeOfFilePath_in_range_spec in Hrange; [| exact Hlen];
           replace (to_UINT32 z + 1 - 1) with (to_UINT32 z) by lia;
           (split; [lia |]); eexists _, _, _, _;
           (split; [known_event | assumption])
       end.
Qed.

(** X8. The clean-up comes last and in order: after the release of the
    local-file interface [GetUriPath] makes no native call, only the
    [delete []] of the array may follow; after the [delete []] nothing
    follows, and the array deleted was allocated before. *)
Theorem X8_nothing_is_used_after_cleanup (N : Native) (this : FontFile) :
  (forall pre via q post,
      snd (run_GetUriPath N this) = pre ++ Release_call via q :: post ->
      Forall (fun e => is_delete e = true) post) /\
  (forall pre n post,
      snd (run_GetUriPath N this) = pre ++ delete_WCHAR n :: post ->
      post = [] /\ In (new_WCHAR n) pre).
Proof.
  destruct (run_GetUriPath N this) as [r t] eqn:H. simpl snd.
  destruct this as [[[fontFile]|]]; run_in H.
  all: split.
  all: try (intros ? ? ? ? Hcut; cut_log Hcut;
            match goal with
            | E : Release_call _ _ = _ |- _ =>
                first [discriminate E | inversion E; subst]
            end; repeat constructor).
  all: intros ? ? ? Hcut; cut_log Hcut;
       match goal with
       | E : delete_WCHAR _ = _ |- _ =>
           first [discriminate E | inversion E; subst]
       end; (split; [reflexivity | known_event]).
Qed.

(** ** GetUriPath: the string *)

(** X9. A string [GetUriPath] returns holds no null character, in either
    branch. *)
Theorem X9_returned_string_has_no_null
    (N : Native) (this : FontFile) (s : String) (t : list event) :
  run_GetUriPath N this = (Return s, t) ->
  forall c, In c s -> c <> 0.
Proof.
  intros H. destruct this as [[[fontFile]|]]; run_in H.
  all: match goal with
       | Hs : wcs_prefix _ = Some ?x |- forall c, In c ?x -> _ =>
           apply wcs_prefix_spec in Hs; destruct Hs as [rest [_ Hs]]; exact Hs
       end.
Qed.

Lemma X9_witness : Forall (fun c => c <> 0) [67; 58; 92; 102].
Proof.
  apply Forall_forall.
  exact (X9_returned_string_has_no_null local_file live [67; 58; 92; 102] _ eq_refl).
Defined.

Lemma byte_of_Z_to_N (z : Z) : Z.of_N (Byte.to_N (byte_of_Z z)) = z mod 256.
Proof.
  unfold byte_of_Z.
  pose proof (Z.mod_pos_bound z 256 ltac:(lia)) as Hz.
  destruct (Byte.of_N (Z.to_N (z mod 256))) as [b |] eqn:E.
  - apply Byte.to_of_N in E. rewrite E. lia.
  - apply Byte.of_N_None_iff in E. lia.
Qed.

(** Decoding undoes encoding, up to the terminator; what follows is ignored. *)
Lemma wcs_prefix_utf16le (s : String) (rest : list byte) :
  (forall c, In c s -> 0 < c < 65536) ->
  wcs_prefix (wchars_of_bytes (utf16le s ++ x00 :: x00 :: rest)) = Some s.
Proof.
  induction s as [| c s IH]; intros Hs.
  - reflexivity.
  - assert (Hc : 0 < c < 65536) by (apply Hs; left; reflexivity).
    assert (Hunit : Z.of_N (Byte.to_N (byte_of_Z c))
                    + 256 * Z.of_N (Byte.to_N (byte_of_Z (c / 256))) = c).
    { rewrite !byte_of_Z_to_N.
      rewrite (Z.mod_small (c / 256) 256)
        by (split; [apply Z.div_pos; lia | apply Z.div_lt_upper_bound; lia]).
      pose proof (Z.div_mod c 256 ltac:(lia)). lia. }
    cbn [utf16le app wchars_of_bytes wcs_prefix]. rewrite Hunit.
    destruct (c =? 0) eqn:E; [apply Z.eqb_eq in E; lia |].
    rewrite IH; [reflexivity |].
    intros c' Hin. apply Hs. right. exact Hin.
Qed.

(** X10. A reference key that holds a path in UTF-16, little-endian, followed
    by a terminator comes back as that path from the fallback branch:
    whatever follows the terminator in the key is ignored, and so is the size
    the font file reported for the key. *)
Theorem X10_fallback_decodes_UTF16_key
    (N : Native) (this : FontFile) (r : result String) (t : list event)
    (loader : ptr) (iid : GUID) (q p : ptr) (hr : HRESULT)
    (s : String) (rest : list byte) (size : UINT32) :
  run_GetUriPath N this = (r, t) ->
  In (QueryInterface_call loader iid E_NOINTERFACE q) t ->
  In (GetReferenceKey_call p hr (utf16le s ++ x00 :: x00 :: rest) size) t ->
  FAILED hr = false ->
  (forall c, In c s -> 0 < c < 65536) ->
  r = Return s.
Proof.
  intros H Hquery Hkey Hok Hs.
  pose proof (wcs_prefix_utf16le s rest Hs) as Hdecode.
  destruct this as [[[fontFile]|]]; run_in H; in_log Hquery; in_log Hkey;
    congruence.
Qed.

Lemma X10_witness : fst (run_GetUriPath custom_loader live) = Return [97; 46; 98].
Proof.
  apply (X10_fallback_decodes_UTF16_key custom_loader live _
           (snd (run_GetUriPath custom_loader live))
           20 _guidForIDWriteLocalFontFileLoader NULL 10 S_OK [97; 46; 98] [] 8).
  - reflexivity.
  - right; left; reflexivity.
  - right; right; left; reflexivity.
  - reflexivity.
  - intros c Hin. simpl in Hin.
    destruct Hin as [<- | [<- | [<- | []]]]; lia.
Defined.

(** ** GetUriPath: how it can end *)

(** X11. [GetUriPath] fails fast in one case only: a length query that
    succeeded reported [UINT_MAX]. *)
Theorem X11_fail_fast_only_on_UINT_MAX
    (N : Native) (this : FontFile) (t : list event) :
  run_GetUriPath N this = (FailFast, t) ->
  exists q key size hr,
    In (GetFilePathLengthFromKey_call q key size hr UINT_MAX) t /\
    FAILED hr = false.
Proof.
  intros H. destruct this as [[[fontFile]|]]; run_in H.
  match goal with
  | Hrange : sizeOfFilePath_in_range (to_UINT32 ?z) = false |- _ =>
      rewrite <- (out_of_range_UINT_MAX z Hrange)
  end.
  eexists _, _, _, _. split; [known_event | assumption].
Qed.

Lemma X11_witness :
  exists q key size hr,
    In (GetFilePathLengthFromKey_call q key size hr UINT_MAX)
       (snd (run_GetUriPath length_UINT_MAX live)) /\
    FAILED hr = false.
Proof.
  exact (X11_fail_fast_only_on_UINT_MAX length_UINT_MAX live _ eq_refl).
Defined.


